(** * A shallow embedding of the go-discogs client

    The Go package [discogs] builds HTTP GET requests against the Discogs
    REST API, authenticates them either with a process-global header set
    (static mode) or through an OAuth1 client (OAuth mode), and decodes the
    JSON answer into caller-owned destinations.

    Modelling choices:
    - the HTTP round trips are the only effects; they are nodes of a small
      free monad [io] whose continuations receive the outcome of the round
      trip, so theorems can inspect the request that is issued and the
      value returned for every possible answer;
    - the package-global [header] variable is explicit state ([globals])
      threaded through [New] and read by [request];
    - a Go result pair [(T, error)] with pointer [T] is [option T * option error],
      [None] standing for [nil];
    - JSON decoding is the black box [json.Unmarshal]: a class [JSONValue]
      whose instances the section context supplies per record type. *)

From Stdlib Require Import String Ascii List ZArith Bool Lia.
Import ListNotations.
Open Scope string_scope.

(* ------------------------------------------------------------------ *)
(** ** Go library pieces used by the package *)

Module GoLib.

(** [strconv.Itoa]: the decimal representation of an int. *)
Fixpoint uint_string (d : Decimal.uint) : string :=
  match d with
  | Decimal.Nil => ""
  | Decimal.D0 d' => String "0" (uint_string d')
  | Decimal.D1 d' => String "1" (uint_string d')
  | Decimal.D2 d' => String "2" (uint_string d')
  | Decimal.D3 d' => String "3" (uint_string d')
  | Decimal.D4 d' => String "4" (uint_string d')
  | Decimal.D5 d' => String "5" (uint_string d')
  | Decimal.D6 d' => String "6" (uint_string d')
  | Decimal.D7 d' => String "7" (uint_string d')
  | Decimal.D8 d' => String "8" (uint_string d')
  | Decimal.D9 d' => String "9" (uint_string d')
  end.

Definition Itoa (z : Z) : string :=
  match z with
  | Z0 => "0"
  | Zpos p => uint_string (Pos.to_uint p)
  | Zneg p => String "-" (uint_string (Pos.to_uint p))
  end.

(** [net/url.shouldEscape] in mode [encodeQueryComponent]: only the
    unreserved characters are kept as they are. *)
Definition is_unreserved (c : ascii) : bool :=
  let n := nat_of_ascii c in
  (Nat.leb 65 n && Nat.leb n 90) || (Nat.leb 97 n && Nat.leb n 122)
  || (Nat.leb 48 n && Nat.leb n 57)
  || Ascii.eqb c "-" || Ascii.eqb c "_" || Ascii.eqb c "." || Ascii.eqb c "~".

Definition upperhex (n : nat) : ascii :=
  if Nat.ltb n 10 then ascii_of_nat (48 + n) else ascii_of_nat (55 + n).

(** [url.QueryEscape]: space becomes [+], other reserved bytes [%XX]. *)
Fixpoint QueryEscape (s : string) : string :=
  match s with
  | EmptyString => EmptyString
  | String c s' =>
      if is_unreserved c then String c (QueryEscape s')
      else if Ascii.eqb c " " then String "+" (QueryEscape s')
      else String "%" (String (upperhex (Nat.div (nat_of_ascii c) 16))
             (String (upperhex (Nat.modulo (nat_of_ascii c) 16)) (QueryEscape s')))
  end.

(** [url.Values] ([map[string][]string]) as an association list with one
    entry per key; [nil] and the empty map both encode to "". *)
Definition Values := list (string * list string).

(** [Values.Set]: replaces the values of [k]. *)
Fixpoint Values_Set (k v : string) (vs : Values) : Values :=
  match vs with
  | [] => [(k, [v])]
  | (k', xs) :: rest =>
      if String.eqb k k' then (k, [v]) :: rest else (k', xs) :: Values_Set k v rest
  end.

Fixpoint Values_Get (k : string) (vs : Values) : option (list string) :=
  match vs with
  | [] => None
  | (k', xs) :: rest => if String.eqb k k' then Some xs else Values_Get k rest
  end.

Fixpoint insert_key (k : string) (ks : list string) : list string :=
  match ks with
  | [] => [k]
  | k' :: rest =>
      match String.compare k k' with
      | Gt => k' :: insert_key k rest
      | _ => k :: ks
      end
  end.

(** [sort.Strings]: byte-wise lexicographic order. *)
Definition sort_strings (ks : list string) : list string :=
  fold_right insert_key [] ks.

Fixpoint join_amp (xs : list string) : string :=
  match xs with
  | [] => ""
  | [x] => x
  | x :: rest => x ++ "&" ++ join_amp rest
  end.

(** [Values.Encode]: keys sorted, each value as [k=v], joined with [&]. *)
Definition Encode (vs : Values) : string :=
  join_amp
    (flat_map (fun k =>
       match Values_Get k vs with
       | Some xs => map (fun v => QueryEscape k ++ "=" ++ QueryEscape v) xs
       | None => []
       end) (sort_strings (map fst vs))).

(** [http.Header] ([map[string][]string]); [Header.Add] appends a value to
    its key.  The keys the package uses ("User-Agent", "Authorization") are
    already in canonical MIME form, so canonicalisation is the identity on
    them and is not spelt out. *)
Definition Header := list (string * list string).

Fixpoint Header_Add (k v : string) (h : Header) : Header :=
  match h with
  | [] => [(k, [v])]
  | (k', xs) :: rest =>
      if String.eqb k k' then (k', app xs [v]) :: rest else (k', xs) :: Header_Add k v rest
  end.

Fixpoint Header_Get (k : string) (h : Header) : option (list string) :=
  match h with
  | [] => None
  | (k', xs) :: rest => if String.eqb k k' then Some xs else Header_Get k rest
  end.

End GoLib.
Import GoLib.

(* ------------------------------------------------------------------ *)
(** ** Errors *)

(** The errors of [encoding/json]. *)
Inductive json_error :=
| SyntaxError (msg : string) (Offset : Z)
| UnmarshalTypeError (Value : string) (Type_ : string).

(** The error values the package produces or passes on.  The sentinels
    [ErrUserAgentInvalid], [ErrCurrencyNotSupported] and [ErrUnauthorized]
    are compared by identity, so a constructor each is their model. *)
Inductive error :=
| ErrUserAgentInvalid
| ErrCurrencyNotSupported
| ErrUnauthorized
| ErrorString (msg : string)        (* fmt.Errorf without %w *)
| JSONError (e : json_error)        (* json.Unmarshal *)
| URLError (rawurl : string)        (* http.NewRequest: url.Parse failed *)
| TransportError (msg : string)     (* client.Do / oauth GetContext *)
| ReadError                         (* ioutil.ReadAll on the body *)
| WrapError (msg : string) (cause : error).  (* fmt.Errorf("...: %w", err) *)

(** [errors.Unwrap]. *)
Definition Unwrap (e : error) : option error :=
  match e with
  | WrapError _ c => Some c
  | _ => None
  end.

(* ------------------------------------------------------------------ *)
(** ** HTTP round trips as a free monad *)

(** [oauth.Credentials] and the part of [oauth.Client] the model keeps:
    both are opaque handles for this package. *)
Record Credentials := { Token_ : string; Secret : string }.
Record oauth_Client := { ClientCredentials : Credentials; ClientHeader : Header }.

Record http_request := { Method : string; ReqURL : string; ReqHeader : Header }.

(** [Body = None]: reading the body fails. *)
Record http_response := { StatusCode : Z; Status : string; Body : option string }.

Inductive outcome :=
| RoundTripError (msg : string)
| Response (r : http_response).

Inductive io (A : Type) : Type :=
| Ret (a : A)
| Panic (msg : string)
  (** [(&http.Client{}).Do(r)] *)
| Do (r : http_request) (k : outcome -> io A)
  (** [client.GetContext(ctx, creds, url, params)] of the OAuth1 library,
      which signs and sends the request itself. *)
| OAuthGet (c : option oauth_Client) (creds : option Credentials)
    (url : string) (params : Values) (k : outcome -> io A).
Arguments Ret {A} a.
Arguments Panic {A} msg.
Arguments Do {A} r k.
Arguments OAuthGet {A} c creds url params k.

Fixpoint bind {A B} (m : io A) (f : A -> io B) : io B :=
  match m with
  | Ret a => f a
  | Panic msg => Panic msg
  | Do r k => Do r (fun o => bind (k o) f)
  | OAuthGet c cr u ps k => OAuthGet c cr u ps (fun o => bind (k o) f)
  end.

Notation "x <- m ;; f" := (bind m (fun x => f))
  (at level 61, m at next level, right associativity).

(** Observations on a computation. *)
Definition first_request {A} (m : io A) : option http_request :=
  match m with Do r _ => Some r | _ => None end.

Definition respond {A} (m : io A) (o : outcome) : io A :=
  match m with
  | Do _ k => k o
  | OAuthGet _ _ _ _ k => k o
  | _ => m
  end.

Definition returned {A} (m : io A) : option A :=
  match m with Ret a => Some a | _ => None end.

(** The call [client.GetContext(ctx, creds, url, params)] a computation
    makes first, when its first effect is an OAuth request. *)
Definition oauth_request {A} (m : io A)
  : option (option oauth_Client * option Credentials * string * Values) :=
  match m with OAuthGet c cr u ps _ => Some (c, cr, u, ps) | _ => None end.

(** [P] holds of every value the computation can return, whatever the
    answers of the round trips. *)
Fixpoint io_forall {A} (P : A -> Prop) (m : io A) : Prop :=
  match m with
  | Ret a => P a
  | Panic _ => True
  | Do _ k => forall o, io_forall P (k o)
  | OAuthGet _ _ _ _ k => forall o, io_forall P (k o)
  end.

(** [m1] and [m2] make the same round trips and, whatever their answers,
    both panic or both return, with related values ([R]). *)
Fixpoint io_rel {A B} (R : A -> B -> Prop) (m1 : io A) (m2 : io B) : Prop :=
  match m1, m2 with
  | Ret a, Ret b => R a b
  | Panic _, Panic _ => True
  | Do r1 k1, Do r2 k2 => r1 = r2 /\ forall o, io_rel R (k1 o) (k2 o)
  | OAuthGet c1 cr1 u1 ps1 k1, OAuthGet c2 cr2 u2 ps2 k2 =>
      c1 = c2 /\ cr1 = cr2 /\ u1 = u2 /\ ps1 = ps2 /\ forall o, io_rel R (k1 o) (k2 o)
  | _, _ => False
  end.

(* ------------------------------------------------------------------ *)
(** ** Package state, options and services *)

(** [var header *http.Header]; [None] is the nil pointer before the first
    call to [New]. *)
Record globals := { header : option Header }.

Definition discogsAPI := "https://api.discogs.com".

Record Options := { URL : string; Currency : string; UserAgent : string; Token : string }.

Module databaseService.
Record t := { url : string; currency : string }.
End databaseService.

(** [searchService] is not under src/; its constructor is only called. *)
Module searchService.
Record t := { url : string }.
End searchService.

Module collectionService.
Record t := { url : string; oauthClient : option oauth_Client; creds : option Credentials }.
End collectionService.

Module userService.
Record t := { url : string; oauthClient : option oauth_Client; creds : option Credentials }.
End userService.

Definition newDatabaseService (url currency : string) : databaseService.t :=
  {| databaseService.url := url; databaseService.currency := currency |}.

(** Modelled from the spec: [newSearchService] (not under src/), a search
    service that holds the query endpoint URL it is given. *)
Definition newSearchService (url : string) : searchService.t :=
  {| searchService.url := url |}.

Definition newUserService (url : string) : userService.t :=
  {| userService.url := url; userService.oauthClient := None; userService.creds := None |}.

Definition newCollectionService (url : string) : collectionService.t :=
  {| collectionService.url := url; collectionService.oauthClient := None;
     collectionService.creds := None |}.

(** [discogs] embeds the four services. *)
Record discogs := {
  DatabaseService : databaseService.t;
  SearchService : searchService.t;
  UserService : userService.t;
  CollectionService : collectionService.t }.

Definition supported_switch : list string :=
  ["USD"; "GBP"; "EUR"; "CAD"; "AUD"; "JPY"; "CHF"; "MXN"; "BRL"; "NZD"; "SEK"; "ZAR"].

(** [currency]: the [switch] on [c]. *)
Definition currency (c : string) : string * option error :=
  if existsb (String.eqb c) supported_switch then (c, None)
  else if String.eqb c "" then ("USD", None)
  else ("", Some ErrCurrencyNotSupported).

(** [New(o *Options) (Discogs, error)].  Returns the package globals after
    the call, the caller's [*Options] after the call ([o.URL] is filled in
    place) and the Go result pair. *)
Definition New (g : globals) (o : option Options)
  : globals * option Options * (option discogs * option error) :=
  (* header = &http.Header{} *)
  let h0 : Header := [] in
  match o with
  | None => ({| header := Some h0 |}, None, (None, Some ErrUserAgentInvalid))
  | Some o =>
      if String.eqb (UserAgent o) "" then
        ({| header := Some h0 |}, Some o, (None, Some ErrUserAgentInvalid))
      else
        let h1 := Header_Add "User-Agent" (UserAgent o) h0 in
        match currency (Currency o) with
        | (_, Some err) => ({| header := Some h1 |}, Some o, (None, Some err))
        | (cur, None) =>
            let h2 := if String.eqb (Token o) "" then h1
                      else Header_Add "Authorization" ("Discogs token=" ++ Token o) h1 in
            let o := if String.eqb (URL o) ""
                     then {| URL := discogsAPI; Currency := Currency o;
                             UserAgent := UserAgent o; Token := Token o |}
                     else o in
            ({| header := Some h2 |}, Some o,
             (Some {| DatabaseService := newDatabaseService (URL o) cur;
                      SearchService := newSearchService (URL o ++ "/database/search");
                      UserService := newUserService (URL o);
                      CollectionService := newCollectionService (URL o) |}, None))
        end
  end.

(** The dynamic value an [Option] receives through [interface{}]: a pointer
    to one of the package's services, or to a value of some other type
    (named by [type_name]).  Go options mutate through the pointer, so they
    never change the dynamic type; the model passes the pointee in and out. *)
Inductive dyn :=
| DynCollection (c : collectionService.t)
| DynUser (u : userService.t)
| DynDatabase (d : databaseService.t)
| DynOther (type_name : string) (value : string).

(** [type Option func(interface{})] *)
Definition Option := dyn -> dyn.

Definition WithCredentials (creds : option Credentials) : Option :=
  fun c =>
    match c with
    | DynCollection t =>
        DynCollection {| collectionService.url := collectionService.url t;
                         collectionService.oauthClient := collectionService.oauthClient t;
                         collectionService.creds := creds |}
    | DynUser t =>
        DynUser {| userService.url := userService.url t;
                   userService.oauthClient := userService.oauthClient t;
                   userService.creds := creds |}
    | other => other
    end.

Definition WithClient (client : option oauth_Client) : Option :=
  fun c =>
    match c with
    | DynCollection t =>
        DynCollection {| collectionService.url := collectionService.url t;
                         collectionService.oauthClient := client;
                         collectionService.creds := collectionService.creds t |}
    | DynUser t =>
        DynUser {| userService.url := userService.url t;
                   userService.oauthClient := client;
                   userService.creds := userService.creds t |}
    | other => other
    end.

(** [for _, opts := range options { opts(c) }] on a [*collectionService]. *)
Definition apply_options_collection (c : collectionService.t) (options : list Option)
  : collectionService.t :=
  match fold_left (fun d opt => opt d) options (DynCollection c) with
  | DynCollection c' => c'
  | _ => c   (* unreachable for Go options, see [dyn] *)
  end.

Definition apply_options_user (u : userService.t) (options : list Option) : userService.t :=
  match fold_left (fun d opt => opt d) options (DynUser u) with
  | DynUser u' => u'
  | _ => u
  end.

(** [strings.Replace(s, old, new, 1)] for a non-empty [old]. *)
Definition Replace1 (s old new : string) : string :=
  match index 0 old s with
  | Some i => substring 0 i s ++ new ++ substring (i + String.length old) (String.length s - (i + String.length old)) s
  | None => s
  end.

(** Modelled from the spec: [Pagination] and its [params] method, which are
    not under src/ ("page number, page size; optional.  Converts to query
    parameters; absent fields are omitted").  A nil pagination gives no
    parameters; a zero (unset) field is absent. *)
Record Pagination := { Page : Z; PerPage : Z }.

Definition Pagination_params (p : option Pagination) : Values :=
  match p with
  | None => []
  | Some p =>
      let ps := if Z.eqb (Page p) 0 then [] else Values_Set "page" (Itoa (Page p)) [] in
      if Z.eqb (PerPage p) 0 then ps else Values_Set "per_page" (Itoa (PerPage p)) ps
  end.

Record GetFolderArgs := { ID : Z; Username : string }.

Definition releasesURI := "/releases/".
Definition artistsURI := "/artists/".
Definition labelsURI := "/labels/".
Definition mastersURI := "/masters/".
Definition foldersURI := "/users/{username}/collection/folders".
Definition folderURI := "/users/{username}/collection/folders/{id}".
Definition folderReleasesURI := "/users/{username}/collection/folders/{id}/releases".
Definition oauthIdentityURI := "/oauth/identity".

(** [json.Unmarshal(body, &v)] for a destination of type [T]: decodes into
    the current value (a failed decode may have written part of it) and
    reports the decode error; [zero_value] is the Go zero value of [T]. *)
Class JSONValue (T : Type) := {
  zero_value : T;
  unmarshal : string -> T -> T * option json_error }.

Definition unknown_status (response : http_response) : error :=
  ErrorString ("unknown error: " ++ Status response).

(** Concrete decoders used to evaluate the model on examples: [unit]
    stands for every record type. *)
#[export] Instance unit_json : JSONValue unit :=
  {| zero_value := tt; unmarshal := fun _ v => (v, None) |}.
#[export] Instance option_unit_json : JSONValue (option unit) :=
  {| zero_value := None;
     unmarshal := fun b v =>
       if String.eqb b "null" then (None, None)
       else if String.eqb b "{}" then (Some tt, None)
       else (v, Some (SyntaxError "invalid character" 1)) |}.

(* ------------------------------------------------------------------ *)
(** ** Tracing *)

(** The part of OpenCensus' [trace] package that [RecordError] uses. *)
Module trace.
Inductive AttributeValue :=
| StringAttribute (v : string)
| Int64Attribute (v : Z).
Definition Attribute : Type := string * AttributeValue.
Record Status := { Code : Z; Message : string }.
Definition StatusCodeUnknown : Z := 2.
Definition StatusCodeInternal : Z := 13.
End trace.

Record ErrorConfig := {
  Error : option error;
  Code : Z;
  Message : string;
  Attributes : list trace.Attribute }.

Section Tracing.

(** [err.Error()]: the message of an error value. *)
Variable Error_string : error -> string.

(** A span's attribute store and its [add] of one attribute.  OpenCensus
    keeps the attributes in a bounded LRU map keyed by name, where a new
    value replaces the old one; the model leaves the store abstract. *)
Variable AttrStore : Type.
Variable add_attribute : trace.Attribute -> AttrStore -> AttrStore.

(** A [*trace.Span]: whether it records events, its attributes and its
    status. *)
Record Span := { IsRecordingEvents : bool; attributes : AttrStore;
                 status : option trace.Status }.

(** [span.AddAttributes(attrs...)]: nothing on a span that does not record. *)
Definition AddAttributes (s : Span) (attrs : list trace.Attribute) : Span :=
  if IsRecordingEvents s then
    {| IsRecordingEvents := true;
       attributes := fold_left (fun st a => add_attribute a st) attrs (attributes s);
       status := status s |}
  else s.

(** [span.SetStatus(st)]: nothing on a span that does not record. *)
Definition SetStatus (s : Span) (st : trace.Status) : Span :=
  if IsRecordingEvents s then
    {| IsRecordingEvents := true; attributes := attributes s; status := Some st |}
  else s.

(** [RecordError(ctx, e)]: [span] is [trace.FromContext(ctx)] ([None] for
    a context without a span); the result is that span after the call. *)
Definition RecordError (span : option Span) (e : ErrorConfig) : option Span :=
  match span with
  | None => None
  | Some s =>
      let s := match Error e with
               | Some err => AddAttributes s [("error", trace.StringAttribute (Error_string err))]
               | None => s
               end in
      let code := if Z.eqb (Code e) 0 then trace.StatusCodeUnknown else Code e in
      let s := AddAttributes s (Attributes e) in
      Some (SetStatus s {| trace.Code := code; trace.Message := Message e |})
  end.

End Tracing.

(* ------------------------------------------------------------------ *)
(** ** Transport and services *)

Section Package.

(** Whether [net/url.Parse] accepts a raw URL ([http.NewRequest] fails
    otherwise). *)
Variable url_parse_ok : string -> bool.

Context (Release ReleaseRating Artist ArtistReleases Label LabelReleases
         Master MasterVersions : Type).
Context (CollectionResponse Folder FolderReleasesResponse Identity : Type).
Context `{JSONValue (option Release)} `{JSONValue (option ReleaseRating)}
        `{JSONValue (option Artist)} `{JSONValue (option ArtistReleases)}
        `{JSONValue (option Label)} `{JSONValue (option LabelReleases)}
        `{JSONValue (option Master)} `{JSONValue (option MasterVersions)}.
Context `{JSONValue CollectionResponse} `{JSONValue Folder}
        `{JSONValue FolderReleasesResponse} `{JSONValue Identity}.

(** [request(ctx, path, params, resp)]: static auth with the global header.
    Returns the destination after the call and the error. *)
Definition request {T} `{JSONValue T} (g : globals) (path : string) (params : Values)
  (resp : T) : io (T * option error) :=
  let rawurl := path ++ "?" ++ Encode params in
  if negb (url_parse_ok rawurl) then Ret (resp, Some (URLError rawurl)) else
  match header g with
  | None => Panic "invalid memory address or nil pointer dereference"
  | Some h =>
      Do {| Method := "GET"; ReqURL := rawurl; ReqHeader := h |} (fun o =>
        match o with
        | RoundTripError e => Ret (resp, Some (TransportError e))
        | Response response =>
            if negb (Z.eqb (StatusCode response) 200) then
              if Z.eqb (StatusCode response) 401 then Ret (resp, Some ErrUnauthorized)
              else Ret (resp, Some (unknown_status response))
            else
              match Body response with
              | None => Ret (resp, Some ReadError)
              | Some body =>
                  let (resp', jerr) := unmarshal body resp in
                  Ret (resp', option_map JSONError jerr)
              end
        end)
  end.

(** [requestWithCreds(ctx, path, client, creds, params, resp)]: OAuth mode. *)
Definition requestWithCreds {T} `{JSONValue T} (path : string)
  (client : option oauth_Client) (creds : option Credentials) (params : Values)
  (resp : T) : io (T * option error) :=
  OAuthGet client creds path params (fun o =>
    match o with
    | RoundTripError e => Ret (resp, Some (TransportError e))
    | Response response =>
        if negb (Z.eqb (StatusCode response) 200) then
          if Z.eqb (StatusCode response) 401 then Ret (resp, Some ErrUnauthorized)
          else Ret (resp, Some (unknown_status response))
        else
          match Body response with
          | None => Ret (resp, Some ReadError)
          | Some body =>
              let (resp', jerr) := unmarshal body resp in
              Ret (resp', option_map JSONError jerr)
          end
    end).

(** The tail shared by the database methods: on error, [RecordError] (a
    tracing side effect, not modelled) and
    [return nil, fmt.Errorf(msg + "%w", err)]; otherwise the decoded pointer. *)
Definition db_result {R} (msg : string) (r : option R * option error)
  : io (option R * option error) :=
  match r with
  | (_, Some err) => Ret (None, Some (WrapError msg err))
  | (v, None) => Ret (v, None)
  end.

Definition databaseService_Release (g : globals) (s : databaseService.t) (releaseID : Z)
  : io (option Release * option error) :=
  let params := Values_Set "curr_abbr" (databaseService.currency s) [] in
  let path := databaseService.url s ++ releasesURI ++ Itoa releaseID in
  r <- request g path params (None : option Release) ;;
  db_result "failed to fetch release: " r.

Definition databaseService_ReleaseRating (g : globals) (s : databaseService.t) (releaseID : Z)
  : io (option ReleaseRating * option error) :=
  let path := databaseService.url s ++ releasesURI ++ Itoa releaseID ++ "/rating" in
  r <- request g path [] (None : option ReleaseRating) ;;
  db_result "failed to fetch release rating: " r.

Definition databaseService_Artist (g : globals) (s : databaseService.t) (artistID : Z)
  : io (option Artist * option error) :=
  let path := databaseService.url s ++ artistsURI ++ Itoa artistID in
  r <- request g path [] (None : option Artist) ;;
  db_result "failed to fetch artist: " r.

Definition databaseService_ArtistReleases (g : globals) (s : databaseService.t)
  (artistID : Z) (pagination : option Pagination)
  : io (option ArtistReleases * option error) :=
  let path := databaseService.url s ++ artistsURI ++ Itoa artistID ++ "/releases" in
  r <- request g path (Pagination_params pagination) (None : option ArtistReleases) ;;
  db_result "failed to fetch artist releases: " r.

Definition databaseService_Label (g : globals) (s : databaseService.t) (labelID : Z)
  : io (option Label * option error) :=
  let path := databaseService.url s ++ labelsURI ++ Itoa labelID in
  r <- request g path [] (None : option Label) ;;
  db_result "failed to fetch artist releases: " r.

Definition databaseService_LabelReleases (g : globals) (s : databaseService.t)
  (labelID : Z) (pagination : option Pagination)
  : io (option LabelReleases * option error) :=
  let path := databaseService.url s ++ labelsURI ++ Itoa labelID ++ "/releases" in
  r <- request g path (Pagination_params pagination) (None : option LabelReleases) ;;
  db_result "failed to fetch artist releases: " r.

Definition databaseService_Master (g : globals) (s : databaseService.t) (masterID : Z)
  : io (option Master * option error) :=
  let path := databaseService.url s ++ mastersURI ++ Itoa masterID in
  r <- request g path [] (None : option Master) ;;
  db_result "failed to fetch artist releases: " r.

Definition databaseService_MasterVersions (g : globals) (s : databaseService.t)
  (masterID : Z) (pagination : option Pagination)
  : io (option MasterVersions * option error) :=
  let path := databaseService.url s ++ mastersURI ++ Itoa masterID ++ "/versions" in
  r <- request g path (Pagination_params pagination) (None : option MasterVersions) ;;
  db_result "failed to fetch artist releases: " r.

(** The tail shared by the OAuth methods: on error the span is marked and
    [return nil, err]; otherwise a pointer to the local variable. *)
Definition oauth_result {R} (r : R * option error) : io (option R * option error) :=
  match r with
  | (_, Some err) => Ret (None, Some err)
  | (v, None) => Ret (Some v, None)
  end.

(** The OAuth methods apply their options to the receiver before the call;
    the mutated service is returned next to the computation. *)
Definition collectionService_GetFolders (c : collectionService.t) (username : string)
  (options : list Option)
  : collectionService.t * io (option CollectionResponse * option error) :=
  let c := apply_options_collection c options in
  let path := Replace1 foldersURI "{username}" username in
  (c, r <- requestWithCreds (collectionService.url c ++ path)
             (collectionService.oauthClient c) (collectionService.creds c) []
             (zero_value : CollectionResponse) ;;
      oauth_result r).

Definition collectionService_GetFolder (c : collectionService.t) (args : GetFolderArgs)
  (options : list Option)
  : collectionService.t * io (option Folder * option error) :=
  let c := apply_options_collection c options in
  let path := Replace1 folderURI "{username}" (Username args) in
  let path := Replace1 path "{id}" (Itoa (ID args)) in
  (c, r <- requestWithCreds (collectionService.url c ++ path)
             (collectionService.oauthClient c) (collectionService.creds c) []
             (zero_value : Folder) ;;
      oauth_result r).

Definition collectionService_GetFolderReleases (c : collectionService.t)
  (args : GetFolderArgs) (options : list Option)
  : collectionService.t * io (option FolderReleasesResponse * option error) :=
  let c := apply_options_collection c options in
  let path := Replace1 folderReleasesURI "{username}" (Username args) in
  let path := Replace1 path "{id}" (Itoa (ID args)) in
  (c, r <- requestWithCreds (collectionService.url c ++ path)
             (collectionService.oauthClient c) (collectionService.creds c) []
             (zero_value : FolderReleasesResponse) ;;
      oauth_result r).

Definition userService_OAuthIdentity (u : userService.t) (options : list Option)
  : userService.t * io (option Identity * option error) :=
  let u := apply_options_user u options in
  let route := userService.url u ++ oauthIdentityURI in
  (u, r <- requestWithCreds route (userService.oauthClient u) (userService.creds u) []
             (zero_value : Identity) ;;
      oauth_result r).

(** Every operation of a constructed client, for statements over all of
    them.  [GetFolderReleases] is a method of [*collectionService] outside
    the [CollectionService] interface; it is listed too.  The search service
    is not under src/ and has no operation here. *)
Inductive Call :=
| CallRelease (releaseID : Z)
| CallReleaseRating (releaseID : Z)
| CallArtist (artistID : Z)
| CallArtistReleases (artistID : Z) (pagination : option Pagination)
| CallLabel (labelID : Z)
| CallLabelReleases (labelID : Z) (pagination : option Pagination)
| CallMaster (masterID : Z)
| CallMasterVersions (masterID : Z) (pagination : option Pagination)
| CallGetFolders (username : string) (options : list Option)
| CallGetFolder (args : GetFolderArgs) (options : list Option)
| CallGetFolderReleases (args : GetFolderArgs) (options : list Option)
| CallOAuthIdentity (options : list Option).

Definition call_result (c : Call) : Type :=
  match c with
  | CallRelease _ => Release
  | CallReleaseRating _ => ReleaseRating
  | CallArtist _ => Artist
  | CallArtistReleases _ _ => ArtistReleases
  | CallLabel _ => Label
  | CallLabelReleases _ _ => LabelReleases
  | CallMaster _ => Master
  | CallMasterVersions _ _ => MasterVersions
  | CallGetFolders _ _ => CollectionResponse
  | CallGetFolder _ _ => Folder
  | CallGetFolderReleases _ _ => FolderReleasesResponse
  | CallOAuthIdentity _ => Identity
  end.

(** The computation of a call through a client [d]; the service state the
    OAuth methods leave behind is dropped here. *)
Definition run (g : globals) (d : discogs) (c : Call)
  : io (option (call_result c) * option error) :=
  match c as c0 return io (option (call_result c0) * option error) with
  | CallRelease id => databaseService_Release g (DatabaseService d) id
  | CallReleaseRating id => databaseService_ReleaseRating g (DatabaseService d) id
  | CallArtist id => databaseService_Artist g (DatabaseService d) id
  | CallArtistReleases id p => databaseService_ArtistReleases g (DatabaseService d) id p
  | CallLabel id => databaseService_Label g (DatabaseService d) id
  | CallLabelReleases id p => databaseService_LabelReleases g (DatabaseService d) id p
  | CallMaster id => databaseService_Master g (DatabaseService d) id
  | CallMasterVersions id p => databaseService_MasterVersions g (DatabaseService d) id p
  | CallGetFolders u opts => snd (collectionService_GetFolders (CollectionService d) u opts)
  | CallGetFolder a opts => snd (collectionService_GetFolder (CollectionService d) a opts)
  | CallGetFolderReleases a opts =>
      snd (collectionService_GetFolderReleases (CollectionService d) a opts)
  | CallOAuthIdentity opts => snd (userService_OAuthIdentity (UserService d) opts)
  end.

Definition is_database_call (c : Call) : bool :=
  match c with
  | CallGetFolders _ _ | CallGetFolder _ _ | CallGetFolderReleases _ _
  | CallOAuthIdentity _ => false
  | _ => true
  end.


(** The request [request] sends for a raw URL, when it sends one. *)
Definition sent_request (g : globals) (rawurl : string) : option http_request :=
  if url_parse_ok rawurl then
    option_map (fun h => {| Method := "GET"; ReqURL := rawurl; ReqHeader := h |}) (header g)
  else None.

(** The errors the two transport functions return themselves. *)
Definition transport_error (e : error) : bool :=
  match e with
  | ErrUnauthorized | ErrorString _ | JSONError _ | URLError _ | TransportError _
  | ReadError => true
  | _ => false
  end.

(** How a transport computation [m] with destination [resp] answers a
    response it receives. *)
Definition status_mapping {T} `{JSONValue T} (m : io (T * option error)) (resp : T) : Prop :=
  (forall response, StatusCode response = 401%Z ->
     returned (respond m (Response response)) = Some (resp, Some ErrUnauthorized)) /\
  (forall response, StatusCode response <> 200%Z -> StatusCode response <> 401%Z ->
     returned (respond m (Response response))
       = Some (resp, Some (ErrorString ("unknown error: " ++ Status response)))) /\
  (forall response body je, StatusCode response = 200%Z -> Body response = Some body ->
     snd (unmarshal body resp) = Some je ->
     returned (respond m (Response response))
       = Some (fst (unmarshal body resp), Some (JSONError je))
     /\ JSONError je <> ErrUnauthorized
     /\ (forall msg, JSONError je <> ErrorString msg)).

(** The error a transport computation returns. *)
Definition request_error {T} (m : io (T * option error)) : io (option error) :=
  bind m (fun r => Ret (snd r)).

(** The [request] or [requestWithCreds] call each operation makes, with
    the arguments the method passes, reduced to the error it returns. *)
Definition call_transport (g : globals) (d : discogs) (c : Call) : io (option error) :=
  let s := DatabaseService d in
  match c with
  | CallRelease id =>
      request_error (request g (databaseService.url s ++ releasesURI ++ Itoa id)
                       (Values_Set "curr_abbr" (databaseService.currency s) [])
                       (None : option Release))
  | CallReleaseRating id =>
      request_error (request g (databaseService.url s ++ releasesURI ++ Itoa id ++ "/rating")
                       [] (None : option ReleaseRating))
  | CallArtist id =>
      request_error (request g (databaseService.url s ++ artistsURI ++ Itoa id)
                       [] (None : option Artist))
  | CallArtistReleases id p =>
      request_error (request g (databaseService.url s ++ artistsURI ++ Itoa id ++ "/releases")
                       (Pagination_params p) (None : option ArtistReleases))
  | CallLabel id =>
      request_error (request g (databaseService.url s ++ labelsURI ++ Itoa id)
                       [] (None : option Label))
  | CallLabelReleases id p =>
      request_error (request g (databaseService.url s ++ labelsURI ++ Itoa id ++ "/releases")
                       (Pagination_params p) (None : option LabelReleases))
  | CallMaster id =>
      request_error (request g (databaseService.url s ++ mastersURI ++ Itoa id)
                       [] (None : option Master))
  | CallMasterVersions id p =>
      request_error (request g (databaseService.url s ++ mastersURI ++ Itoa id ++ "/versions")
                       (Pagination_params p) (None : option MasterVersions))
  | CallGetFolders u opts =>
      let c := apply_options_collection (CollectionService d) opts in
      request_error (requestWithCreds
        (collectionService.url c ++ Replace1 foldersURI "{username}" u)
        (collectionService.oauthClient c) (collectionService.creds c) []
        (zero_value : CollectionResponse))
  | CallGetFolder a opts =>
      let c := apply_options_collection (CollectionService d) opts in
      request_error (requestWithCreds
        (collectionService.url c
           ++ Replace1 (Replace1 folderURI "{username}" (Username a)) "{id}" (Itoa (ID a)))
        (collectionService.oauthClient c) (collectionService.creds c) []
        (zero_value : Folder))
  | CallGetFolderReleases a opts =>
      let c := apply_options_collection (CollectionService d) opts in
      request_error (requestWithCreds
        (collectionService.url c
           ++ Replace1 (Replace1 folderReleasesURI "{username}" (Username a)) "{id}"
                (Itoa (ID a)))
        (collectionService.oauthClient c) (collectionService.creds c) []
        (zero_value : FolderReleasesResponse))
  | CallOAuthIdentity opts =>
      let u := apply_options_user (UserService d) opts in
      request_error (requestWithCreds (userService.url u ++ oauthIdentityURI)
        (userService.oauthClient u) (userService.creds u) [] (zero_value : Identity))
  end.

(** How a transport computation [m] with destination [resp] answers a
    failed round trip, an unreadable body and a body that decodes. *)
Definition delivery_mapping {T} `{JSONValue T} (m : io (T * option error)) (resp : T) : Prop :=
  (forall msg, returned (respond m (RoundTripError msg))
                 = Some (resp, Some (TransportError msg))) /\
  (forall response, StatusCode response = 200%Z -> Body response = None ->
     returned (respond m (Response response)) = Some (resp, Some ReadError)) /\
  (forall response body v, StatusCode response = 200%Z -> Body response = Some body ->
     unmarshal body resp = (v, None) ->
     returned (respond m (Response response)) = Some (v, None)).

(* ------------------------------------------------------------------ *)
(** ** Lemmas *)

Lemma io_forall_bind {A B} (P : B -> Prop) (m : io A) (f : A -> io B) :
  (forall a, io_forall P (f a)) -> io_forall P (bind m f).
Proof.
  intros Hf; induction m as [a|msg|r k IH|c cr u ps k IH]; simpl; auto.
Qed.

Lemma first_request_bind {A B} (m : io A) (f : A -> io B) :
  first_request (bind m f)
  = match m with Ret a => first_request (f a) | _ => first_request m end.
Proof. destruct m; reflexivity. Qed.

Lemma existsb_eqb_In (c : string) (l : list string) :
  existsb (String.eqb c) l = true <-> In c l.
Proof.
  rewrite existsb_exists; split.
  - intros [x [Hx E]]; apply String.eqb_eq in E; subst; exact Hx.
  - intros Hin; exists c; split; [exact Hin | apply String.eqb_refl].
Qed.

Lemma string_app_assoc (a b c : string) : (a ++ b) ++ c = a ++ b ++ c.
Proof. induction a as [|x a IH]; simpl; [reflexivity | rewrite IH; reflexivity]. Qed.

Lemma io_forall_bind_inv {A B} (Q : A -> Prop) (P : B -> Prop) (m : io A) (f : A -> io B) :
  io_forall Q m -> (forall a, Q a -> io_forall P (f a)) -> io_forall P (bind m f).
Proof.
  intros Hm Hf; induction m as [a|msg|r k IH|c cr u ps k IH]; simpl in *; auto.
Qed.

Lemma io_rel_bind {A B C} (R : B -> C -> Prop) (m : io A) (h : A -> B) (f : A -> io C) :
  (forall a, io_rel R (Ret (h a)) (f a)) ->
  io_rel R (bind m (fun a => Ret (h a))) (bind m f).
Proof.
  intros Hf; induction m as [a|msg|r k IH|cl cr u ps k IH]; simpl.
  - exact (Hf a).
  - exact I.
  - split; [reflexivity | exact IH].
  - split; [reflexivity|]; split; [reflexivity|]; split; [reflexivity|].
    split; [reflexivity | exact IH].
Qed.

(** A database method sends exactly the request [request] builds. *)
Lemma first_request_db {R} `{JSONValue (option R)} (g : globals) (path : string)
  (params : Values) (msg : string) :
  first_request (bind (request g path params (None : option R)) (db_result msg))
  = sent_request g (path ++ "?" ++ Encode params).
Proof.
  unfold request, sent_request.
  destruct (url_parse_ok _); simpl; [destruct (header g); reflexivity | reflexivity].
Qed.

(** Every request a call sends carries the global header. *)
Lemma first_request_run (g : globals) (d : discogs) (c : Call) (req : http_request) :
  first_request (run g d c) = Some req -> header g = Some (ReqHeader req).
Proof.
  destruct c; simpl;
    unfold databaseService_Release, databaseService_ReleaseRating, databaseService_Artist,
      databaseService_ArtistReleases, databaseService_Label, databaseService_LabelReleases,
      databaseService_Master, databaseService_MasterVersions;
    try rewrite first_request_db; try (simpl; discriminate);
    unfold sent_request; destruct (url_parse_ok _); try discriminate;
    destruct (header g); simpl; intros E; try discriminate; injection E; intros; subst; reflexivity.
Qed.

(** Every error [request] or [requestWithCreds] returns is its own. *)
Lemma request_errors {T} `{JSONValue T} (g : globals) (path : string) (params : Values) (v : T) :
  io_forall (fun r => match snd r with Some e => transport_error e = true | None => True end)
    (request g path params v).
Proof.
  unfold request; destruct (url_parse_ok _); simpl; [|reflexivity].
  destruct (header g); simpl; [|exact I].
  intros [e|response]; simpl; [reflexivity|].
  destruct (negb _); [destruct (Z.eqb _ _); reflexivity|].
  destruct (Body response) as [body|]; [|reflexivity].
  destruct (unmarshal body v) as [v' [je|]]; reflexivity.
Qed.

Lemma requestWithCreds_errors {T} `{JSONValue T} (path : string) client creds
  (params : Values) (v : T) :
  io_forall (fun r => match snd r with Some e => transport_error e = true | None => True end)
    (requestWithCreds path client creds params v).
Proof.
  unfold requestWithCreds; simpl.
  intros [e|response]; simpl; [reflexivity|].
  destruct (negb _); [destruct (Z.eqb _ _); reflexivity|].
  destruct (Body response) as [body|]; [|reflexivity].
  destruct (unmarshal body v) as [v' [je|]]; reflexivity.
Qed.

Ltac unfold_ops :=
  unfold databaseService_Release, databaseService_ReleaseRating, databaseService_Artist,
    databaseService_ArtistReleases, databaseService_Label, databaseService_LabelReleases,
    databaseService_Master, databaseService_MasterVersions,
    collectionService_GetFolders, collectionService_GetFolder,
    collectionService_GetFolderReleases, userService_OAuthIdentity.

(* ------------------------------------------------------------------ *)
(** ** Transport *)

(** C1: on a received response, both transport functions map status 401 to
    [ErrUnauthorized], any other non-200 status to a generic error whose
    message is "unknown error: " followed by the status text, and a 200
    response whose body does not decode to the decoder's error, distinct
    from both ([request] receives a response only once it has sent its
    request). *)
Theorem request_status_errors {T} `{JSONValue T} (g : globals) (path : string)
  (params : Values) (resp : T)
  (Hsent : first_request (request g path params resp) <> None) :
  status_mapping (request g path params resp) resp /\
  (forall client creds,
     status_mapping (requestWithCreds path client creds params resp) resp).
Proof.
  assert (Hdo : exists r, request g path params resp
    = Do r (fun o =>
        match o with
        | RoundTripError e => Ret (resp, Some (TransportError e))
        | Response response =>
            if negb (Z.eqb (StatusCode response) 200) then
              if Z.eqb (StatusCode response) 401 then Ret (resp, Some ErrUnauthorized)
              else Ret (resp, Some (unknown_status response))
            else
              match Body response with
              | None => Ret (resp, Some ReadError)
              | Some body =>
                  let (resp', jerr) := unmarshal body resp in
                  Ret (resp', option_map JSONError jerr)
              end
        end)).
  { unfold request in *. destruct (url_parse_ok _); simpl in *; [|congruence].
    destruct (header g); simpl in *; [eexists; reflexivity | congruence]. }
  destruct Hdo as [r Hr].
  split; [rewrite Hr | intros client creds];
  (split; [|split]);
  [ intros response E; simpl; rewrite E; reflexivity
  | intros response E200 E401; simpl; unfold unknown_status;
    destruct (Z.eqb_spec (StatusCode response) 200); [congruence|];
    destruct (Z.eqb_spec (StatusCode response) 401); [congruence|]; reflexivity
  | intros response body je E200 EB EJ; simpl; rewrite E200, EB; simpl;
    destruct (unmarshal body resp) as [v j]; simpl in EJ; subst j;
    repeat split; discriminate
  | intros response E; simpl; rewrite E; reflexivity
  | intros response E200 E401; simpl; unfold unknown_status;
    destruct (Z.eqb_spec (StatusCode response) 200); [congruence|];
    destruct (Z.eqb_spec (StatusCode response) 401); [congruence|]; reflexivity
  | intros response body je E200 EB EJ; simpl; rewrite E200, EB; simpl;
    destruct (unmarshal body resp) as [v j]; simpl in EJ; subst j;
    repeat split; discriminate ].
Qed.

(* ------------------------------------------------------------------ *)
(** ** Construction *)

(** C2: with a user agent, [New] succeeds for each of the twelve currency
    codes and keeps it, fails with [ErrCurrencyNotSupported] for any other
    non-empty string, and the client's currency differs from the given one
    exactly when the given one is empty, in which case it is "USD". *)
Theorem New_currency (g : globals) (o : Options) (Hua : UserAgent o <> "") :
  (In (Currency o)
     ["USD"; "GBP"; "EUR"; "CAD"; "AUD"; "JPY"; "CHF"; "MXN"; "BRL"; "NZD"; "SEK"; "ZAR"] ->
   exists g' o' d, New g (Some o) = (g', o', (Some d, None)) /\
     databaseService.currency (DatabaseService d) = Currency o) /\
  (~ In (Currency o)
       ["USD"; "GBP"; "EUR"; "CAD"; "AUD"; "JPY"; "CHF"; "MXN"; "BRL"; "NZD"; "SEK"; "ZAR"] ->
   Currency o <> "" ->
   exists g' o', New g (Some o) = (g', o', (None, Some ErrCurrencyNotSupported))) /\
  (Currency o = "" ->
   exists g' o' d, New g (Some o) = (g', o', (Some d, None)) /\
     databaseService.currency (DatabaseService d) = "USD") /\
  (forall g' o' d, New g (Some o) = (g', o', (Some d, None)) ->
   databaseService.currency (DatabaseService d) <> Currency o <-> Currency o = "").
Proof.
  assert (Hua' : String.eqb (UserAgent o) "" = false)
    by (apply String.eqb_neq; exact Hua).
  unfold New, currency, supported_switch; rewrite Hua'.
  split; [|split; [|split]].
  - intros Hin; apply existsb_eqb_In in Hin; rewrite Hin.
    eexists; eexists; eexists; split; reflexivity.
  - intros Hnin Hne.
    rewrite <- existsb_eqb_In in Hnin; apply not_true_is_false in Hnin; rewrite Hnin.
    apply String.eqb_neq in Hne; rewrite Hne.
    eexists; eexists; reflexivity.
  - intros E; rewrite E; simpl.
    eexists; eexists; eexists; split; reflexivity.
  - intros g' o' d.
    destruct (existsb (String.eqb (Currency o)) _) eqn:Hs.
    + intros Heq; injection Heq; intros; subst; simpl; split; [contradiction|].
      intros E; rewrite E in Hs; discriminate.
    + destruct (String.eqb_spec (Currency o) "") as [E|E].
      * intros Heq; injection Heq; intros; subst; simpl; rewrite E.
        split; [auto | discriminate].
      * intros Heq; discriminate.
Qed.

(** C3: without options, or with an empty user agent, [New] returns a nil
    client and [ErrUserAgentInvalid], whatever the other fields hold. *)
Theorem New_without_user_agent (g : globals) (o : option Options)
  (Hno : match o with None => True | Some o => UserAgent o = "" end) :
  snd (New g o) = (None, Some ErrUserAgentInvalid).
Proof.
  destruct o as [o|]; [|reflexivity].
  unfold New; rewrite Hno; reflexivity.
Qed.

(** C10: [WithCredentials] sets only [creds] and [WithClient] only
    [oauthClient] of a collection or user service; on a value of any other
    type both leave it as it is.  Through the option loop of [GetFolders]
    the receiver is updated the same way. *)
Theorem options_frame (creds : option Credentials) (client : option oauth_Client) :
  (forall t, exists t', WithCredentials creds (DynCollection t) = DynCollection t' /\
     collectionService.creds t' = creds /\
     collectionService.url t' = collectionService.url t /\
     collectionService.oauthClient t' = collectionService.oauthClient t) /\
  (forall t, exists t', WithCredentials creds (DynUser t) = DynUser t' /\
     userService.creds t' = creds /\
     userService.url t' = userService.url t /\
     userService.oauthClient t' = userService.oauthClient t) /\
  (forall t, exists t', WithClient client (DynCollection t) = DynCollection t' /\
     collectionService.oauthClient t' = client /\
     collectionService.url t' = collectionService.url t /\
     collectionService.creds t' = collectionService.creds t) /\
  (forall t, exists t', WithClient client (DynUser t) = DynUser t' /\
     userService.oauthClient t' = client /\
     userService.url t' = userService.url t /\
     userService.creds t' = userService.creds t) /\
  (forall d, match d with
             | DynCollection _ | DynUser _ => True
             | _ => WithCredentials creds d = d /\ WithClient client d = d
             end) /\
  (forall c, apply_options_collection c [WithClient client; WithCredentials creds]
     = {| collectionService.url := collectionService.url c;
          collectionService.oauthClient := client;
          collectionService.creds := creds |}).
Proof.
  repeat split; intros; try (eexists; repeat split; reflexivity).
  destruct d; repeat split; reflexivity.
Qed.

(* ------------------------------------------------------------------ *)
(** ** Database paths *)

(** C4: each database method sends its request to the documented path
    under the base URL, followed by "?" and its query: "/releases/{id}"
    (with the currency), "/releases/{id}/rating", "/artists/{id}",
    "/artists/{id}/releases", "/labels/{id}", "/labels/{id}/releases",
    "/masters/{id}" and "/masters/{id}/versions"; for id 249504 the release
    path ends in "/releases/249504". *)
Theorem database_paths (g : globals) (s : databaseService.t) (id : Z)
  (p : option Pagination) :
  first_request (databaseService_Release g s id)
    = sent_request g (databaseService.url s ++ "/releases/" ++ Itoa id
                      ++ "?curr_abbr=" ++ QueryEscape (databaseService.currency s)) /\
  first_request (databaseService_ReleaseRating g s id)
    = sent_request g (databaseService.url s ++ "/releases/" ++ Itoa id ++ "/rating?") /\
  first_request (databaseService_Artist g s id)
    = sent_request g (databaseService.url s ++ "/artists/" ++ Itoa id ++ "?") /\
  first_request (databaseService_ArtistReleases g s id p)
    = sent_request g (databaseService.url s ++ "/artists/" ++ Itoa id ++ "/releases?"
                      ++ Encode (Pagination_params p)) /\
  first_request (databaseService_Label g s id)
    = sent_request g (databaseService.url s ++ "/labels/" ++ Itoa id ++ "?") /\
  first_request (databaseService_LabelReleases g s id p)
    = sent_request g (databaseService.url s ++ "/labels/" ++ Itoa id ++ "/releases?"
                      ++ Encode (Pagination_params p)) /\
  first_request (databaseService_Master g s id)
    = sent_request g (databaseService.url s ++ "/masters/" ++ Itoa id ++ "?") /\
  first_request (databaseService_MasterVersions g s id p)
    = sent_request g (databaseService.url s ++ "/masters/" ++ Itoa id ++ "/versions?"
                      ++ Encode (Pagination_params p)) /\
  first_request (databaseService_Release g s 249504)
    = sent_request g (databaseService.url s ++ "/releases/249504?curr_abbr="
                      ++ QueryEscape (databaseService.currency s)).
Proof.
  unfold_ops; rewrite !first_request_db; rewrite !string_app_assoc;
    repeat split; reflexivity.
Qed.

(** C7 (spec-modelled pagination): [ArtistReleases] with page 2 and 50 per
    page sends "page=2&per_page=50" as its query; in general a pagination
    yields the "page" and "per_page" parameters of its set fields and no
    others. *)
Theorem artist_releases_pagination (g : globals) (s : databaseService.t) (id : Z) :
  first_request (databaseService_ArtistReleases g s id (Some {| Page := 2; PerPage := 50 |}))
    = sent_request g (databaseService.url s ++ "/artists/" ++ Itoa id
                      ++ "/releases?page=2&per_page=50") /\
  (forall p, Values_Get "page" (Pagination_params p)
             = match p with
               | Some q => if Z.eqb (Page q) 0 then None else Some [Itoa (Page q)]
               | None => None
               end) /\
  (forall p, Values_Get "per_page" (Pagination_params p)
             = match p with
               | Some q => if Z.eqb (PerPage q) 0 then None else Some [Itoa (PerPage q)]
               | None => None
               end) /\
  (forall p k, In k (map fst (Pagination_params p)) -> k = "page" \/ k = "per_page").
Proof.
  split; [|split; [|split]].
  - unfold_ops; rewrite first_request_db, !string_app_assoc; reflexivity.
  - intros [q|]; [|reflexivity]; simpl.
    destruct (Z.eqb (Page q) 0), (Z.eqb (PerPage q) 0); reflexivity.
  - intros [q|]; [|reflexivity]; simpl.
    destruct (Z.eqb (Page q) 0), (Z.eqb (PerPage q) 0); reflexivity.
  - intros [q|] k; [|simpl; tauto]; simpl.
    destruct (Z.eqb (Page q) 0), (Z.eqb (PerPage q) 0); simpl; intuition.
Qed.

(* ------------------------------------------------------------------ *)
(** ** The global header *)

(** C9: a client built by a first [New] sends, after a second [New], the
    header that the second call left in the global variable; that header
    depends on the second call's options only, and it differs from the
    first one when the user agent differs, or when the second construction
    succeeds with a different token. *)
Theorem static_requests_read_global_header (g0 g1 g2 : globals) (o1 o2 : Options)
  (o1' o2' : option Options) (d1 : discogs) (r2 : option discogs * option error)
  (Hfirst : New g0 (Some o1) = (g1, o1', (Some d1, None)))
  (Hsecond : New g1 (Some o2) = (g2, o2', r2)) :
  (forall c req, first_request (run g2 d1 c) = Some req -> header g2 = Some (ReqHeader req)) /\
  (forall g, fst (fst (New g (Some o2))) = g2) /\
  (UserAgent o1 <> UserAgent o2 \/ (fst r2 <> None /\ Token o1 <> Token o2) ->
   header g2 <> header g1).
Proof.
  split; [intros c req; apply first_request_run|split].
  - intros g; change (New g (Some o2)) with (New g1 (Some o2)); rewrite Hsecond; reflexivity.
  - intros Hcase; unfold New in Hfirst, Hsecond.
    destruct (String.eqb_spec (UserAgent o1) "") as [U1|U1]; [discriminate|].
    destruct (currency (Currency o1)) as [cur1 [e1|]]; [discriminate|].
    injection Hfirst; intros; subst g1; clear Hfirst.
    destruct (String.eqb_spec (UserAgent o2) "") as [U2|U2].
    + injection Hsecond; intros; subst g2 r2; simpl.
      destruct (String.eqb (Token o1) ""); simpl; discriminate.
    + destruct (currency (Currency o2)) as [cur2 [e2|]].
      * injection Hsecond; intros; subst g2 r2; simpl.
        destruct Hcase as [Hua|[Hr _]]; [|simpl in Hr; congruence].
        destruct (String.eqb (Token o1) ""); simpl; intros E; injection E;
          intros; congruence.
      * injection Hsecond; intros; subst g2 r2; simpl.
        destruct Hcase as [Hua|[_ Ht]].
        -- destruct (String.eqb (Token o1) ""), (String.eqb (Token o2) ""); simpl;
             intros E; injection E; intros; congruence.
        -- destruct (String.eqb_spec (Token o1) ""), (String.eqb_spec (Token o2) "");
             simpl; intros E; injection E; intros; congruence.
Qed.

(* ------------------------------------------------------------------ *)
(** ** Results and errors of the operations *)

(** C8: whatever the round trips answer, every operation of a client that
    returns an error returns a nil result with it, and so does [New]. *)
Theorem failures_return_nil (g : globals) (d : discogs) :
  (forall c, io_forall (fun r => snd r <> None -> fst r = None) (run g d c)) /\
  (forall o, snd (snd (New g o)) <> None -> fst (snd (New g o)) = None).
Proof.
  split.
  - intros c; destruct c; cbn [run]; unfold_ops; cbv zeta; cbn [snd];
      apply io_forall_bind; intros [v [e|]]; simpl; congruence.
  - intros [o|]; simpl; [|reflexivity].
    unfold New; destruct (String.eqb (UserAgent o) ""); [reflexivity|].
    destruct (currency (Currency o)) as [cur [e|]]; simpl; [reflexivity|congruence].
Qed.

(** C5 (as amended): every operation makes its request and, whatever the
    answers, ends as the request does (both panic or both return).  When
    the request fails with error [e], the operation returns a nil result
    and: for a database method, [e] wrapped with [%w] in an error whose
    message starts with "failed to fetch ", so that [Unwrap] gives [e]
    back; for the collection and user methods, [e] itself.  When the
    request succeeds, the operation returns no error. *)
Theorem operation_errors (g : globals) (d : discogs) (c : Call) :
  io_rel (fun (err : option error) (r : option (call_result c) * option error) =>
    match err with
    | None => snd r = None
    | Some e =>
        fst r = None /\
        if is_database_call c then
          exists msg w, snd r = Some w /\ w = WrapError msg e /\
            prefix "failed to fetch " msg = true /\ Unwrap w = Some e
        else snd r = Some e
    end) (call_transport g d c) (run g d c).
Proof.
  destruct c; cbn [run call_transport is_database_call]; unfold_ops; cbv zeta; cbn [snd];
    unfold request_error; apply io_rel_bind; intros [v [e|]]; cbn;
    first [ reflexivity
          | split; [reflexivity|]; do 2 eexists; split; [reflexivity|];
            split; [reflexivity|]; split; reflexivity
          | split; reflexivity ].
Qed.

(* ------------------------------------------------------------------ *)
(** ** Further properties of the code *)

Lemma string_app_nil_r (s : string) : s ++ "" = s.
Proof. induction s as [|x s IH]; simpl; [reflexivity | rewrite IH; reflexivity]. Qed.

Lemma string_length_app (a b : string) :
  String.length (a ++ b) = String.length a + String.length b.
Proof. induction a as [|x a IH]; simpl; [reflexivity | rewrite IH; reflexivity]. Qed.

Lemma substring_app_l (a b : string) (n : nat) :
  substring 0 (String.length a + n) (a ++ b) = a ++ substring 0 n b.
Proof. induction a as [|x a IH]; simpl; [reflexivity | rewrite IH; reflexivity]. Qed.

Lemma substring_app_r (a b : string) (n m : nat) :
  substring (String.length a + n) m (a ++ b) = substring n m b.
Proof. induction a as [|x a IH]; simpl; [reflexivity | exact IH]. Qed.

Lemma substring_full (s : string) : substring 0 (String.length s) s = s.
Proof. induction s as [|x s IH]; simpl; [reflexivity | rewrite IH; reflexivity]. Qed.

Lemma prefix_app (p s : string) : prefix p (p ++ s) = true.
Proof.
  induction p as [|x p IH]; simpl; [destruct s; reflexivity|].
  destruct (ascii_dec x x) as [_|n]; [exact IH | contradiction n; reflexivity].
Qed.

Lemma nobrace_app (a b : string) :
  ~ In "{"%char (list_ascii_of_string a) -> ~ In "{"%char (list_ascii_of_string b) ->
  ~ In "{"%char (list_ascii_of_string (a ++ b)).
Proof using.
  induction a as [|x a IH]; simpl; [intros _ Hb; exact Hb|].
  intros Ha Hb [E|Hin]; [apply Ha; left; exact E|].
  apply IH; [intros Hin'; apply Ha; right; exact Hin' | exact Hb | exact Hin].
Qed.

(** A "{id}" placeholder cannot start inside a string without '{'. *)
Lemma index_id_nobrace (a r : string) :
  ~ In "{"%char (list_ascii_of_string a) ->
  index 0 "{id}" (a ++ r) = option_map (fun n => String.length a + n) (index 0 "{id}" r).
Proof using.
  induction a as [|x a IH]; intros Ha.
  - simpl; destruct (index 0 "{id}" r); reflexivity.
  - simpl in Ha.
    change (String x a ++ r) with (String x (a ++ r)).
    change (index 0 "{id}" (String x (a ++ r)))
      with (if prefix "{id}" (String x (a ++ r)) then Some 0
            else match index 0 "{id}" (a ++ r) with Some n => Some (S n) | None => None end).
    replace (prefix "{id}" (String x (a ++ r))) with false.
    + rewrite IH by (intros Hin; apply Ha; right; exact Hin); destruct (index 0 "{id}" r); reflexivity.
    + change (prefix "{id}" (String x (a ++ r)))
        with (match ascii_dec "{" x with left _ => prefix "id}" (a ++ r) | right _ => false end).
      destruct (ascii_dec "{" x) as [E|_]; [subst; exfalso; apply Ha; left; reflexivity | reflexivity].
Qed.

Lemma index_id_here (x : string) : index 0 "{id}" ("{id}" ++ x) = Some 0.
Proof.
  change (index 0 "{id}" ("{id}" ++ x))
    with (if prefix "{id}" ("{id}" ++ x) then Some 0
          else match index 0 "{id}" ("id}" ++ x) with Some n => Some (S n) | None => None end).
  rewrite prefix_app; reflexivity.
Qed.

Lemma substring_after_id (x : string) :
  substring (0 + 4) (String.length ("{id}" ++ x) - (0 + 4)) ("{id}" ++ x) = x.
Proof. simpl; rewrite Nat.sub_0_r; apply substring_full. Qed.

(** The first "{id}" after a prefix without '{' is the first one of the rest. *)
Lemma Replace1_id_nobrace (p r new : string) (i : nat) :
  ~ In "{"%char (list_ascii_of_string p) -> index 0 "{id}" r = Some i ->
  Replace1 (p ++ r) "{id}" new
  = p ++ substring 0 i r ++ new ++ substring (i + 4) (String.length r - (i + 4)) r.
Proof using.
  intros Hp Hr; unfold Replace1.
  rewrite (index_id_nobrace p r Hp), Hr; simpl option_map.
  change (String.length "{id}") with 4.
  rewrite string_length_app, substring_app_l.
  replace (String.length p + i + 4) with (String.length p + (i + 4)) by lia.
  replace (String.length p + String.length r - (String.length p + (i + 4)))
    with (String.length r - (i + 4)) by lia.
  rewrite substring_app_r, string_app_assoc; reflexivity.
Qed.

Lemma prefix_len (p u : string) : prefix p u = true -> String.length p <= String.length u.
Proof using.
  revert u; induction p as [|x p IH]; intros u Hp; simpl; [lia|].
  destruct u as [|y u]; simpl in Hp; [discriminate|].
  destruct (ascii_dec x y); [apply IH in Hp; simpl; lia | discriminate].
Qed.

Lemma prefix_app_len (p u r : string) :
  String.length p <= String.length u -> prefix p (u ++ r) = prefix p u.
Proof using.
  revert u; induction p as [|x p IH]; intros u Hl.
  - destruct u, r; reflexivity.
  - destruct u as [|y u]; simpl in Hl; [lia|].
    change (String y u ++ r) with (String y (u ++ r)); simpl.
    destruct (ascii_dec x y); [apply IH; lia | reflexivity].
Qed.

Lemma index_id_len (u : string) (i : nat) :
  index 0 "{id}" u = Some i -> 4 + i <= String.length u.
Proof using.
  revert i; induction u as [|x u IH]; intros i Hi; [discriminate|].
  change (index 0 "{id}" (String x u))
    with (if prefix "{id}" (String x u) then Some 0
          else match index 0 "{id}" u with Some n => Some (S n) | None => None end) in Hi.
  destruct (prefix "{id}" (String x u)) eqn:P.
  - injection Hi as <-; apply prefix_len in P; simpl in P |- *; lia.
  - destruct (index 0 "{id}" u) as [n|] eqn:In; [|discriminate].
    injection Hi as <-; specialize (IH n eq_refl); simpl; lia.
Qed.

(** The first "{id}" of [u] stays the first one of [u ++ r]. *)
Lemma index_id_app_found (u r : string) (i : nat) :
  index 0 "{id}" u = Some i -> index 0 "{id}" (u ++ r) = Some i.
Proof using.
  revert i; induction u as [|x u IH]; intros i Hi; [discriminate|].
  pose proof (index_id_len _ _ Hi) as Hl.
  change (String x u ++ r) with (String x (u ++ r)).
  change (index 0 "{id}" (String x (u ++ r)))
    with (if prefix "{id}" (String x (u ++ r)) then Some 0
          else match index 0 "{id}" (u ++ r) with Some n => Some (S n) | None => None end).
  change (index 0 "{id}" (String x u))
    with (if prefix "{id}" (String x u) then Some 0
          else match index 0 "{id}" u with Some n => Some (S n) | None => None end) in Hi.
  change (String x (u ++ r)) with (String x u ++ r).
  rewrite prefix_app_len by (simpl in Hl |- *; lia).
  destruct (prefix "{id}" (String x u)); [exact Hi|].
  destruct (index 0 "{id}" u) as [n|] eqn:In; [|discriminate].
  rewrite (IH n eq_refl); exact Hi.
Qed.

Lemma substring_app_prefix (u r : string) (n : nat) :
  n <= String.length u -> substring 0 n (u ++ r) = substring 0 n u.
Proof using.
  revert n; induction u as [|x u IH]; intros n Hn.
  - simpl in Hn; assert (n = 0) as -> by lia; destruct r; reflexivity.
  - destruct n as [|n]; [destruct u, r; reflexivity|].
    simpl in Hn |- *; rewrite IH by lia; reflexivity.
Qed.

Lemma substring_app_suffix (u r : string) (k : nat) :
  k <= String.length u ->
  substring k (String.length u + String.length r - k) (u ++ r)
  = substring k (String.length u - k) u ++ r.
Proof using.
  revert k; induction u as [|x u IH]; intros k Hk.
  - simpl in Hk; assert (k = 0) as -> by lia; simpl; rewrite Nat.sub_0_r; apply substring_full.
  - destruct k as [|k].
    + rewrite !Nat.sub_0_r, <- string_length_app, !substring_full; reflexivity.
    + simpl in Hk |- *; apply IH; lia.
Qed.

Lemma Replace1_folderURI (u : string) :
  Replace1 folderURI "{username}" u = ("/users/" ++ u) ++ "/collection/folders/{id}".
Proof. rewrite string_app_assoc; reflexivity. Qed.

Lemma Replace1_folderReleasesURI (u : string) :
  Replace1 folderReleasesURI "{username}" u
  = ("/users/" ++ u) ++ "/collection/folders/{id}/releases".
Proof. rewrite string_app_assoc; reflexivity. Qed.

Lemma users_nobrace : ~ In "{"%char (list_ascii_of_string "/users/").
Proof. simpl; intuition discriminate. Qed.

(** X: on success, [New] fills an empty [o.URL] in the caller's options
    with the Discogs API address, and every service it builds starts from
    that same base URL, the search service at its "/database/search"
    endpoint; the OAuth services start with no client and no credentials. *)
Theorem New_base_url (g g' : globals) (o : Options) (o' : option Options) (d : discogs)
  (Hok : New g (Some o) = (g', o', (Some d, None))) :
  let base := if String.eqb (URL o) "" then discogsAPI else URL o in
  o' = Some {| URL := base; Currency := Currency o; UserAgent := UserAgent o;
               Token := Token o |} /\
  databaseService.url (DatabaseService d) = base /\
  searchService.url (SearchService d) = base ++ "/database/search" /\
  userService.url (UserService d) = base /\
  collectionService.url (CollectionService d) = base /\
  userService.oauthClient (UserService d) = None /\ userService.creds (UserService d) = None /\
  collectionService.oauthClient (CollectionService d) = None /\
  collectionService.creds (CollectionService d) = None.
Proof.
  destruct o as [u c ua t]; unfold New in Hok; cbn [UserAgent Currency Token URL] in *.
  destruct (String.eqb ua "") eqn:Eua; [discriminate|].
  destruct (currency c) as [cur [err|]]; [discriminate|].
  cbv zeta; destruct (String.eqb u "") eqn:Eu;
    injection Hok; intros; subst; simpl; repeat split.
Qed.

(** X: after a successful [New], every request a database operation of any
    client sends carries the new user agent as its only "User-Agent" value,
    and an "Authorization: Discogs token=..." value exactly when the token
    is non-empty. *)
Theorem New_header (g g' : globals) (o : Options) (o' : option Options) (d : discogs)
  (Hok : New g (Some o) = (g', o', (Some d, None))) :
  header g' = Some (app [("User-Agent", [UserAgent o])]
                      (if String.eqb (Token o) "" then []
                       else [("Authorization", ["Discogs token=" ++ Token o])])) /\
  forall (d' : discogs) (c : Call) (req : http_request),
    first_request (run g' d' c) = Some req ->
    Header_Get "User-Agent" (ReqHeader req) = Some [UserAgent o] /\
    Header_Get "Authorization" (ReqHeader req)
      = (if String.eqb (Token o) "" then None else Some ["Discogs token=" ++ Token o]).
Proof.
  assert (Hh : header g' = Some (app [("User-Agent", [UserAgent o])]
                      (if String.eqb (Token o) "" then []
                       else [("Authorization", ["Discogs token=" ++ Token o])]))).
  { destruct o as [u c ua t]; unfold New in Hok; cbn [UserAgent Currency Token URL] in *.
    destruct (String.eqb ua "") eqn:Eua; [discriminate|].
    destruct (currency c) as [cur [err|]]; [discriminate|].
    cbv zeta in Hok; destruct (String.eqb u "");
      injection Hok; intros; subst; simpl;
      destruct (String.eqb t ""); reflexivity. }
  split; [exact Hh|].
  intros d' c req Hreq; apply first_request_run in Hreq.
  rewrite Hh in Hreq; injection Hreq as Hreq; rewrite <- Hreq; simpl.
  destruct (String.eqb (Token o) ""); simpl; split; reflexivity.
Qed.

(** X: a failing [New] leaves the caller's options as they were, fails
    with one of the two sentinels, and still replaces the global header:
    it is empty, or holds only the new user agent when the currency is the
    problem.  So after a failing [New], no static-auth request (the
    database operations, which send the global header) of any client
    carries an "Authorization" header; the OAuth operations are signed by
    the OAuth client and are not covered. *)
Theorem New_failure_header (g g' : globals) (o o' : option Options) (e : error)
  (Hfail : New g o = (g', o', (None, Some e))) :
  o' = o /\
  (e = ErrUserAgentInvalid \/ e = ErrCurrencyNotSupported) /\
  header g' = Some (match o with
                    | Some o => if String.eqb (UserAgent o) "" then []
                                else [("User-Agent", [UserAgent o])]
                    | None => []
                    end) /\
  forall (d : discogs) (c : Call) (req : http_request),
    first_request (run g' d c) = Some req -> Header_Get "Authorization" (ReqHeader req) = None.
Proof.
  assert (Hall : o' = o /\
    (e = ErrUserAgentInvalid \/ e = ErrCurrencyNotSupported) /\
    header g' = Some (match o with
                      | Some o => if String.eqb (UserAgent o) "" then []
                                  else [("User-Agent", [UserAgent o])]
                      | None => []
                      end)).
  { destruct o as [[u c ua t]|]; unfold New in Hfail; cbn [UserAgent Currency Token URL] in *.
    - destruct (String.eqb ua "") eqn:Eua.
      + injection Hfail; intros; subst; cbn [UserAgent header]; try rewrite Eua; tauto.
      + unfold currency in Hfail.
        destruct (existsb (String.eqb c) supported_switch);
          [cbv zeta in Hfail; destruct (String.eqb u ""); discriminate|].
        destruct (String.eqb c "");
          [cbv zeta in Hfail; destruct (String.eqb u ""); discriminate|].
        injection Hfail; intros; subst; cbn [UserAgent header]; try rewrite Eua; tauto.
    - injection Hfail; intros; subst; simpl; tauto. }
  destruct Hall as [Ho [He Hh]]; split; [exact Ho|]; split; [exact He|]; split; [exact Hh|].
  intros d c req Hreq; apply first_request_run in Hreq.
  rewrite Hh in Hreq; injection Hreq as Hreq; rewrite <- Hreq.
  destruct o as [o|]; [|reflexivity].
  destruct (String.eqb (UserAgent o) ""); reflexivity.
Qed.

(** X: the currency of the database service of any client [New] builds is
    one of the twelve supported codes. *)
Theorem New_currency_supported (g g' : globals) (o o' : option Options) (d : discogs)
  (Hok : New g o = (g', o', (Some d, None))) :
  In (databaseService.currency (DatabaseService d)) supported_switch.
Proof.
  destruct o as [[u c ua t]|]; [|discriminate].
  unfold New in Hok; cbn [UserAgent Currency Token URL] in *.
  destruct (String.eqb ua "") eqn:Eua; [discriminate|].
  unfold currency in Hok.
  destruct (existsb (String.eqb c) supported_switch) eqn:Ec.
  - cbv zeta in Hok; destruct (String.eqb u ""); injection Hok; intros; subst;
      cbn [DatabaseService newDatabaseService databaseService.currency];
      apply existsb_eqb_In; exact Ec.
  - destruct (String.eqb c ""); [|discriminate].
    cbv zeta in Hok; destruct (String.eqb u ""); injection Hok; intros; subst;
      simpl; left; reflexivity.
Qed.

(** X: once [request] has sent its request, it returns a failed round trip
    as a transport error and an unreadable 200 body as a read error, both
    with the destination untouched, and a 200 body that decodes as the
    decoded destination with no error; [requestWithCreds] answers the same. *)
Theorem request_delivery {T} `{JSONValue T} (g : globals) (path : string) (params : Values)
  (resp : T) (client : option oauth_Client) (creds : option Credentials)
  (Hsent : first_request (request g path params resp) <> None) :
  delivery_mapping (request g path params resp) resp /\
  delivery_mapping (requestWithCreds path client creds params resp) resp.
Proof.
  assert (Hk : forall m : io (T * option error),
    (forall o, respond m o = match o with
      | RoundTripError e => Ret (resp, Some (TransportError e))
      | Response response =>
          if negb (Z.eqb (StatusCode response) 200) then
            if Z.eqb (StatusCode response) 401 then Ret (resp, Some ErrUnauthorized)
            else Ret (resp, Some (unknown_status response))
          else
            match Body response with
            | None => Ret (resp, Some ReadError)
            | Some body => let (resp', jerr) := unmarshal body resp in
                           Ret (resp', option_map JSONError jerr)
            end
      end) -> delivery_mapping m resp).
  { intros m Hm; split; [|split].
    - intros msg; rewrite Hm; reflexivity.
    - intros response H200 Hb; rewrite Hm, H200, Hb; reflexivity.
    - intros response body v H200 Hb Hdec; rewrite Hm, H200, Hb, Hdec; reflexivity. }
  split; apply Hk; [|reflexivity].
  unfold request in *; destruct (url_parse_ok _); simpl in *; [|contradiction Hsent; reflexivity].
  destruct (header g); [reflexivity | contradiction Hsent; reflexivity].
Qed.

(** X: when the answer to its request is a 200 whose body decodes without
    error, [Release] returns the decoded pointer and no error; in
    particular it returns a nil release with a nil error when the body
    decodes to nil, as the JSON literal null does. *)
Theorem Release_decoded (g : globals) (s : databaseService.t) (id : Z)
  (response : http_response) (body : string) (v : option Release)
  (Hsent : first_request (databaseService_Release g s id) <> None)
  (H200 : StatusCode response = 200%Z) (Hbody : Body response = Some body)
  (Hdec : unmarshal body (None : option Release) = (v, None)) :
  returned (respond (databaseService_Release g s id) (Response response)) = Some (v, None).
Proof.
  revert Hsent; unfold databaseService_Release, request; cbv zeta.
  destruct (url_parse_ok _); simpl; [|intros Hs; contradiction Hs; reflexivity].
  destruct (header g); simpl; [|intros Hs; contradiction Hs; reflexivity].
  intros _; rewrite H200, Hbody; simpl; rewrite Hdec; reflexivity.
Qed.

(** X: the collection and user operations never return a nil result with
    a nil error, nor a result together with an error: exactly one of the
    two is non-nil, whatever the answers of the round trip. *)
Theorem oauth_results_exclusive (g : globals) (d : discogs) (c : Call)
  (Hc : is_database_call c = false) :
  io_forall (fun r => fst r = None <-> snd r <> None) (run g d c).
Proof.
  destruct c; try discriminate; cbn [run]; unfold_ops; cbv zeta; cbn [snd];
    apply io_forall_bind; intros [v [e|]]; cbn; split; intros Hx;
    first [discriminate | reflexivity | contradiction Hx; reflexivity].
Qed.

(** X: options given to one collection call stay on the service: after
    [GetFolders] with [WithClient] and [WithCredentials], the service keeps
    its URL and holds that client and those credentials, and a later
    [GetFolder] or [GetFolderReleases] without options signs its request
    with them. *)
Theorem options_persist (c : collectionService.t) (username : string) (args : GetFolderArgs)
  (cl : option oauth_Client) (cr : option Credentials) :
  let c' := fst (collectionService_GetFolders c username [WithClient cl; WithCredentials cr]) in
  collectionService.url c' = collectionService.url c /\
  collectionService.oauthClient c' = cl /\ collectionService.creds c' = cr /\
  (exists url ps, oauth_request (snd (collectionService_GetFolder c' args [])) = Some (cl, cr, url, ps)) /\
  (exists url ps, oauth_request (snd (collectionService_GetFolderReleases c' args []))
                  = Some (cl, cr, url, ps)).
Proof.
  cbv zeta; split; [reflexivity|]; split; [reflexivity|]; split; [reflexivity|].
  split; do 2 eexists; reflexivity.
Qed.

(** X: [GetFolders] asks the OAuth client for
    <service URL>/users/<username>/collection/folders and [OAuthIdentity]
    for <service URL>/oauth/identity, without query parameters, signed with
    the client and credentials the service holds once the options are
    applied; the username is put in as is, without escaping. *)
Theorem oauth_routes (c : collectionService.t) (u : userService.t) (username : string)
  (options : list Option) :
  let c' := apply_options_collection c options in
  let u' := apply_options_user u options in
  fst (collectionService_GetFolders c username options) = c' /\
  oauth_request (snd (collectionService_GetFolders c username options))
    = Some (collectionService.oauthClient c', collectionService.creds c',
            collectionService.url c' ++ "/users/" ++ username ++ "/collection/folders", []) /\
  fst (userService_OAuthIdentity u options) = u' /\
  oauth_request (snd (userService_OAuthIdentity u options))
    = Some (userService.oauthClient u', userService.creds u',
            userService.url u' ++ "/oauth/identity", []).
Proof.
  cbv zeta; split; [reflexivity|]; split; [|split; reflexivity].
  unfold collectionService_GetFolders; cbn [snd].
  replace (Replace1 foldersURI "{username}" username)
    with ("/users/" ++ username ++ "/collection/folders") by reflexivity.
  reflexivity.
Qed.

(** X: for a username without '{', [GetFolder] asks for
    <service URL>/users/<username>/collection/folders/<id> and
    [GetFolderReleases] for the same path followed by "/releases", without
    query parameters and signed with the service's client and credentials
    once the options are applied. *)
Theorem folder_routes (c : collectionService.t) (args : GetFolderArgs) (options : list Option)
  (Hname : ~ In "{"%char (list_ascii_of_string (Username args))) :
  let c' := apply_options_collection c options in
  oauth_request (snd (collectionService_GetFolder c args options))
    = Some (collectionService.oauthClient c', collectionService.creds c',
            collectionService.url c' ++ "/users/" ++ Username args ++ "/collection/folders/"
              ++ Itoa (ID args), []) /\
  oauth_request (snd (collectionService_GetFolderReleases c args options))
    = Some (collectionService.oauthClient c', collectionService.creds c',
            collectionService.url c' ++ "/users/" ++ Username args ++ "/collection/folders/"
              ++ Itoa (ID args) ++ "/releases", []).
Proof.
  pose proof (nobrace_app _ _ users_nobrace Hname) as Hp.
  cbv zeta; unfold collectionService_GetFolder, collectionService_GetFolderReleases;
    cbn [snd]; rewrite Replace1_folderURI, Replace1_folderReleasesURI.
  rewrite (Replace1_id_nobrace _ "/collection/folders/{id}" _ 20 Hp eq_refl).
  rewrite (Replace1_id_nobrace _ "/collection/folders/{id}/releases" _ 20 Hp eq_refl).
  cbn [oauth_request requestWithCreds bind].
  rewrite !string_app_assoc; split; [rewrite string_app_nil_r|]; reflexivity.
Qed.

(** X: the username is not checked for placeholders: when it contains
    "{id}", [GetFolder] puts the folder ID in place of the first "{id}" of
    the username and leaves the "{id}" of the path template in the URL it
    requests. *)
Theorem folder_route_placeholder (c : collectionService.t) (args : GetFolderArgs)
  (options : list Option) (i : nat) (Hi : index 0 "{id}" (Username args) = Some i) :
  let c' := apply_options_collection c options in
  let u := Username args in
  oauth_request (snd (collectionService_GetFolder c args options))
    = Some (collectionService.oauthClient c', collectionService.creds c',
            collectionService.url c' ++ "/users/" ++ substring 0 i u ++ Itoa (ID args)
              ++ substring (i + 4) (String.length u - (i + 4)) u
              ++ "/collection/folders/{id}", []).
Proof.
  pose proof (index_id_len _ _ Hi) as Hlen.
  cbv zeta; unfold collectionService_GetFolder; cbn [snd].
  rewrite Replace1_folderURI.
  unfold Replace1 at 1.
  rewrite string_app_assoc, (index_id_nobrace "/users/" _ users_nobrace),
    (index_id_app_found _ _ _ Hi); cbn [option_map].
  change (String.length "{id}") with 4.
  rewrite substring_app_l, string_length_app.
  replace (String.length "/users/" + i + 4) with (String.length "/users/" + (i + 4)) by lia.
  replace (String.length "/users/" + String.length (Username args ++ "/collection/folders/{id}")
             - (String.length "/users/" + (i + 4)))
    with (String.length (Username args ++ "/collection/folders/{id}") - (i + 4)) by lia.
  rewrite substring_app_r, string_length_app, substring_app_prefix by lia.
  rewrite substring_app_suffix by lia.
  cbn [oauth_request requestWithCreds bind].
  rewrite !string_app_assoc; reflexivity.
Qed.


End Package.

(* ------------------------------------------------------------------ *)
(** ** Instances on concrete inputs *)

Lemma request_status_errors_witness :
  first_request (request (fun _ => true) {| header := Some [] |}
                   "https://api.discogs.com/releases/1" [] (None : option unit)) <> None /\
  returned (respond (request (fun _ => true) {| header := Some [] |}
                       "https://api.discogs.com/releases/1" [] (None : option unit))
              (Response {| StatusCode := 404; Status := "404 Not Found"; Body := None |}))
    = Some (None, Some (ErrorString "unknown error: 404 Not Found")).
Proof.
  assert (Hs : first_request (request (fun _ => true) {| header := Some [] |}
                 "https://api.discogs.com/releases/1" [] (None : option unit)) <> None)
    by (simpl; discriminate).
  split; [exact Hs|].
  apply (proj1 (proj2 (proj1 (request_status_errors (fun _ => true) _ _ _ None Hs))));
    simpl; discriminate.
Defined.

Lemma New_currency_witness :
  exists g' o' d,
    New {| header := None |}
      (Some {| URL := ""; Currency := "EUR"; UserAgent := "app/1.0"; Token := "" |})
      = (g', o', (Some d, None)) /\
    databaseService.currency (DatabaseService d) = "EUR".
Proof.
  apply (proj1 (New_currency {| header := None |}
    {| URL := ""; Currency := "EUR"; UserAgent := "app/1.0"; Token := "" |}
    ltac:(simpl; discriminate))).
  simpl; tauto.
Defined.

Lemma New_without_user_agent_witness :
  snd (New {| header := None |}
         (Some {| URL := "http://localhost"; Currency := "XYZ"; UserAgent := ""; Token := "t" |}))
    = (None, Some ErrUserAgentInvalid).
Proof. apply New_without_user_agent; reflexivity. Defined.

Lemma static_requests_read_global_header_witness :
  New {| header := None |}
      (Some {| URL := "u"; Currency := "USD"; UserAgent := "app/1.0"; Token := "" |})
    = ({| header := Some [("User-Agent", ["app/1.0"])] |},
       Some {| URL := "u"; Currency := "USD"; UserAgent := "app/1.0"; Token := "" |},
       (Some {| DatabaseService := newDatabaseService "u" "USD";
                SearchService := newSearchService ("u" ++ "/database/search");
                UserService := newUserService "u";
                CollectionService := newCollectionService "u" |}, None)) /\
  New {| header := Some [("User-Agent", ["app/1.0"])] |}
      (Some {| URL := "u"; Currency := "USD"; UserAgent := "app/2.0"; Token := "" |})
    = ({| header := Some [("User-Agent", ["app/2.0"])] |},
       Some {| URL := "u"; Currency := "USD"; UserAgent := "app/2.0"; Token := "" |},
       (Some {| DatabaseService := newDatabaseService "u" "USD";
                SearchService := newSearchService ("u" ++ "/database/search");
                UserService := newUserService "u";
                CollectionService := newCollectionService "u" |}, None)) /\
  Some [("User-Agent", ["app/2.0"])] <> Some [("User-Agent", ["app/1.0"])].
Proof.
  assert (E1 : New {| header := None |}
      (Some {| URL := "u"; Currency := "USD"; UserAgent := "app/1.0"; Token := "" |})
    = ({| header := Some [("User-Agent", ["app/1.0"])] |},
       Some {| URL := "u"; Currency := "USD"; UserAgent := "app/1.0"; Token := "" |},
       (Some {| DatabaseService := newDatabaseService "u" "USD";
                SearchService := newSearchService ("u" ++ "/database/search");
                UserService := newUserService "u";
                CollectionService := newCollectionService "u" |}, None)))
    by reflexivity.
  assert (E2 : New {| header := Some [("User-Agent", ["app/1.0"])] |}
      (Some {| URL := "u"; Currency := "USD"; UserAgent := "app/2.0"; Token := "" |})
    = ({| header := Some [("User-Agent", ["app/2.0"])] |},
       Some {| URL := "u"; Currency := "USD"; UserAgent := "app/2.0"; Token := "" |},
       (Some {| DatabaseService := newDatabaseService "u" "USD";
                SearchService := newSearchService ("u" ++ "/database/search");
                UserService := newUserService "u";
                CollectionService := newCollectionService "u" |}, None)))
    by reflexivity.
  split; [exact E1|split; [exact E2|]].
  pose proof (static_requests_read_global_header (fun _ => true)
    unit unit unit unit unit unit unit unit unit unit unit unit _ _ _ _ _ _ _ _ _ E1 E2) as T.
  apply (proj2 (proj2 T)); left; simpl; discriminate.
Defined.

(** C5 fails as stated: [GetFolders], given an OAuth client and
    credentials and answered with status 401, returns [ErrUnauthorized]
    itself, with no context prefix to unwrap. *)
Lemma GetFolders_error_not_wrapped :
  returned (respond
    (run (fun _ => true) unit unit unit unit unit unit unit unit unit unit unit unit
       {| header := Some [] |}
       {| DatabaseService := newDatabaseService discogsAPI "USD";
          SearchService := newSearchService (discogsAPI ++ "/database/search");
          UserService := newUserService discogsAPI;
          CollectionService := newCollectionService discogsAPI |}
       (CallGetFolders "alice"
          [WithClient (Some {| ClientCredentials := {| Token_ := "consumer-key";
                                                     Secret := "consumer-secret" |};
                               ClientHeader := [] |});
           WithCredentials (Some {| Token_ := "access-token"; Secret := "access-secret" |})]))
    (Response {| StatusCode := 401; Status := "401 Unauthorized"; Body := Some "{}" |}))
  = Some (None, Some ErrUnauthorized) /\ Unwrap ErrUnauthorized = None.
Proof. split; reflexivity. Qed.

Lemma New_base_url_witness :
  exists g' o' d,
    New {| header := None |}
      (Some {| URL := ""; Currency := "GBP"; UserAgent := "app/1.0"; Token := "" |})
      = (g', o', (Some d, None)) /\
    searchService.url (SearchService d) = discogsAPI ++ "/database/search".
Proof.
  eexists; eexists; eexists.
  match goal with |- ?l = ?r /\ _ => assert (E : l = r) by reflexivity end.
  split; [exact E|].
  pose proof (New_base_url _ _ _ _ _ E) as T; cbv zeta in T.
  exact (proj1 (proj2 (proj2 T))).
Defined.

Lemma New_header_witness :
  exists g' o' d,
    New {| header := None |}
      (Some {| URL := ""; Currency := ""; UserAgent := "app/1.0"; Token := "t0" |})
      = (g', o', (Some d, None)) /\
    header g' = Some [("User-Agent", ["app/1.0"]); ("Authorization", ["Discogs token=t0"])].
Proof.
  eexists; eexists; eexists.
  match goal with |- ?l = ?r /\ _ => assert (E : l = r) by reflexivity end.
  split; [exact E|].
  pose proof (New_header (fun _ => true) unit unit unit unit unit unit unit unit unit unit unit unit
                _ _ _ _ _ E) as T.
  rewrite (proj1 T); reflexivity.
Defined.

Lemma New_failure_header_witness :
  exists g' o' e,
    New {| header := Some [("Authorization", ["Discogs token=t0"])] |}
      (Some {| URL := ""; Currency := "XYZ"; UserAgent := "app/1.0"; Token := "t1" |})
      = (g', o', (None, Some e)) /\
    header g' = Some [("User-Agent", ["app/1.0"])].
Proof.
  eexists; eexists; eexists.
  match goal with |- ?l = ?r /\ _ => assert (E : l = r) by reflexivity end.
  split; [exact E|].
  pose proof (New_failure_header (fun _ => true)
                unit unit unit unit unit unit unit unit unit unit unit unit _ _ _ _ _ E) as T.
  rewrite (proj1 (proj2 (proj2 T))); reflexivity.
Defined.

Lemma New_currency_supported_witness :
  exists g' o' d,
    New {| header := None |}
      (Some {| URL := ""; Currency := ""; UserAgent := "app/1.0"; Token := "" |})
      = (g', o', (Some d, None)) /\
    In (databaseService.currency (DatabaseService d)) supported_switch.
Proof.
  eexists; eexists; eexists.
  match goal with |- ?l = ?r /\ _ => assert (E : l = r) by reflexivity end.
  split; [exact E|].
  exact (New_currency_supported _ _ _ _ _ E).
Defined.

Lemma request_delivery_witness :
  first_request (request (fun _ => true) {| header := Some [] |}
                   "https://api.discogs.com/releases/1" [] (None : option unit)) <> None /\
  returned (respond (request (fun _ => true) {| header := Some [] |}
                       "https://api.discogs.com/releases/1" [] (None : option unit))
              (RoundTripError "connection refused"))
    = Some (None, Some (TransportError "connection refused")).
Proof.
  assert (Hs : first_request (request (fun _ => true) {| header := Some [] |}
                 "https://api.discogs.com/releases/1" [] (None : option unit)) <> None)
    by (simpl; discriminate).
  split; [exact Hs|].
  pose proof (request_delivery (fun _ => true) {| header := Some [] |}
                "https://api.discogs.com/releases/1" [] None None None Hs) as T.
  apply (proj1 (proj1 T)).
Defined.

Lemma Release_decoded_witness :
  returned (respond
    (databaseService_Release (fun _ => true) unit {| header := Some [] |}
       (newDatabaseService discogsAPI "USD") 1)
    (Response {| StatusCode := 200; Status := "200 OK"; Body := Some "null" |}))
  = Some (None, None).
Proof.
  apply (Release_decoded (fun _ => true) unit {| header := Some [] |}
           (newDatabaseService discogsAPI "USD") 1
           {| StatusCode := 200; Status := "200 OK"; Body := Some "null" |} "null" None);
    [simpl; discriminate | reflexivity | reflexivity | reflexivity].
Defined.

Lemma oauth_results_exclusive_witness :
  is_database_call (CallOAuthIdentity []) = false /\
  io_forall (fun r => fst r = None <-> snd r <> None)
    (run (fun _ => true) unit unit unit unit unit unit unit unit unit unit unit unit
       {| header := Some [] |}
       {| DatabaseService := newDatabaseService discogsAPI "USD";
          SearchService := newSearchService (discogsAPI ++ "/database/search");
          UserService := newUserService discogsAPI;
          CollectionService := newCollectionService discogsAPI |}
       (CallOAuthIdentity [])).
Proof.
  split; [reflexivity|].
  apply (oauth_results_exclusive (fun _ => true)
           unit unit unit unit unit unit unit unit unit unit unit unit);
    reflexivity.
Defined.

Lemma folder_routes_witness :
  oauth_request (snd (collectionService_GetFolder unit (newCollectionService discogsAPI)
                        {| ID := 7; Username := "alice" |} []))
    = Some (None, None, "https://api.discogs.com/users/alice/collection/folders/7", []).
Proof.
  pose proof (folder_routes unit unit (newCollectionService discogsAPI)
                {| ID := 7; Username := "alice" |} []
                ltac:(simpl; intuition discriminate)) as T.
  cbv zeta in T; exact (proj1 T).
Defined.

Lemma folder_route_placeholder_witness :
  oauth_request (snd (collectionService_GetFolder unit (newCollectionService discogsAPI)
                        {| ID := 7; Username := "ann{id}" |} []))
    = Some (None, None, "https://api.discogs.com/users/ann7/collection/folders/{id}", []).
Proof.
  pose proof (folder_route_placeholder unit (newCollectionService discogsAPI)
                {| ID := 7; Username := "ann{id}" |} [] 3 ltac:(reflexivity)) as T.
  cbv zeta in T; exact T.
Defined.
